(** * VoiceRecognition: the session controller of the voice-input button

    A shallow embedding of [src/components/VoiceRecognition.tsx]: the three
    pieces of React state, the two Notifier callbacks, the handlers attached to
    the speech back ends, and the two chained timers of the simulated
    fallback.  State updates are threaded explicitly; every call of a Notifier
    callback is appended to a trace. *)

From Stdlib Require Import List String NArith Arith Bool Lia.
Import ListNotations.

Local Open Scope string_scope.
Local Open Scope list_scope.

(** ** Data model *)

(** [Platform.OS === 'web'], and on the web whether
    ['webkitSpeechRecognition' in window || 'SpeechRecognition' in window].
    Off the web the [Voice] module is the one required at line 20. *)
Inductive Platform : Type :=
| Web (hasSpeechRecognition : bool)
| Mobile.

(** Lines 29-36. *)
Definition VOICE_RESPONSES : list string :=
  [ "bagaimana cara ganti oli";
    "kenapa mesin overheat";
    "cara check aki mobil";
    "suara mesin kasar";
    "rem blong penyebabnya";
    "ac mobil tidak dingin" ].

(** The three [useState] cells (lines 43-45). *)
Record State : Type := mkState {
  isListening : bool;
  isProcessing : bool;
  error : option string
}.

(** What [onVoiceResult] can be handed: a string, or [undefined] when an array
    is indexed out of range. *)
Inductive JsText : Type :=
| Text (s : string)
| Undefined.

(** A call of one of the two props of the component. *)
Inductive Callback : Type :=
| ListeningChange (isListening : bool)
| VoiceResult (text : JsText).

(** The two callbacks given to [setTimeout] at lines 144 and 147. *)
Inductive TimerTask : Type :=
| SimulatePhase
| SimulateResult.

Definition Timer : Type := (N * TimerTask)%type.

(** The component together with what surrounds it: its props, the clock and
    the pending timers, the speech objects it has created or called, and the
    calls it has made so far, oldest first. *)
Record World : Type := mkWorld {
  platform : Platform;
  isEnabled : bool;
  ui : State;
  clock : N;
  timers : list Timer;
  recognitions : nat;
  voiceStarts : nat;
  voiceStops : nat;
  randomCalls : nat;
  trace : list Callback
}.

Definition initialState : State := mkState false false None.

Definition mount (p : Platform) (enabled : bool) : World :=
  mkWorld p enabled initialState 0%N [] 0 0 0 0 [].

Definition calls (w : World) : list Callback := trace w.

(** ** Effects *)

Definition Action : Type := World -> World.

Definition andThen (a b : Action) : Action := fun w => b (a w).
Notation "a ;; b" := (andThen a b) (at level 61, right associativity).

Definition skip : Action := fun w => w.

Definition withUi (f : State -> State) : Action := fun w =>
  mkWorld (platform w) (isEnabled w) (f (ui w)) (clock w) (timers w)
          (recognitions w) (voiceStarts w) (voiceStops w) (randomCalls w)
          (trace w).

Definition setIsListening (b : bool) : Action :=
  withUi (fun s => mkState b (isProcessing s) (error s)).

Definition setIsProcessing (b : bool) : Action :=
  withUi (fun s => mkState (isListening s) b (error s)).

Definition setError (e : option string) : Action :=
  withUi (fun s => mkState (isListening s) (isProcessing s) e).

Definition notify (c : Callback) : Action := fun w =>
  mkWorld (platform w) (isEnabled w) (ui w) (clock w) (timers w)
          (recognitions w) (voiceStarts w) (voiceStops w) (randomCalls w)
          (trace w ++ [c]).

Definition onListeningChange (b : bool) : Action := notify (ListeningChange b).
Definition onVoiceResult (t : JsText) : Action := notify (VoiceResult t).

Definition setTimers (l : list Timer) : Action := fun w =>
  mkWorld (platform w) (isEnabled w) (ui w) (clock w) l
          (recognitions w) (voiceStarts w) (voiceStops w) (randomCalls w)
          (trace w).

Definition setClock (t : N) : Action := fun w =>
  mkWorld (platform w) (isEnabled w) (ui w) t (timers w)
          (recognitions w) (voiceStarts w) (voiceStops w) (randomCalls w)
          (trace w).

(** [setTimeout(task, ms)]: nothing keeps the handle it returns. *)
Definition setTimeout (task : TimerTask) (ms : N) : Action := fun w =>
  setTimers (timers w ++ [((clock w + ms)%N, task)]) w.

(** [new SpeechRecognition()], the three handlers attached, [start()]
    (lines 118-141).  The object is local to [startListening]. *)
Definition startRecognition : Action := fun w =>
  mkWorld (platform w) (isEnabled w) (ui w) (clock w) (timers w)
          (S (recognitions w)) (voiceStarts w) (voiceStops w) (randomCalls w)
          (trace w).

(** [Voice.start('id-ID')]: a promise that is settled later. *)
Definition Voice_start : Action := fun w =>
  mkWorld (platform w) (isEnabled w) (ui w) (clock w) (timers w)
          (recognitions w) (S (voiceStarts w)) (voiceStops w) (randomCalls w)
          (trace w).

Definition settleVoiceStart : Action := fun w =>
  mkWorld (platform w) (isEnabled w) (ui w) (clock w) (timers w)
          (recognitions w) (pred (voiceStarts w)) (voiceStops w) (randomCalls w)
          (trace w).

(** [Voice.stop()], whose failure is swallowed (lines 176-178). *)
Definition Voice_stop : Action := fun w =>
  mkWorld (platform w) (isEnabled w) (ui w) (clock w) (timers w)
          (recognitions w) (voiceStarts w) (S (voiceStops w)) (randomCalls w)
          (trace w).

Definition countRandomCall : Action := fun w =>
  mkWorld (platform w) (isEnabled w) (ui w) (clock w) (timers w)
          (recognitions w) (voiceStarts w) (voiceStops w) (S (randomCalls w))
          (trace w).

Definition setEnabled (b : bool) : Action := fun w =>
  mkWorld (platform w) b (ui w) (clock w) (timers w)
          (recognitions w) (voiceStarts w) (voiceStops w) (randomCalls w)
          (trace w).

(** ** JavaScript odds and ends *)

Definition isEmpty (s : string) : bool :=
  match s with EmptyString => true | String _ _ => false end.

(** [x || d] for an [x] that is a string or missing: the empty string is
    falsy. *)
Definition orElse (x : option string) (d : string) : string :=
  match x with
  | Some s => if isEmpty s then d else s
  | None => d
  end.

(** [if (error)] on a [string | null]. *)
Definition truthy (x : option string) : option string :=
  match x with
  | Some s => if isEmpty s then None else Some s
  | None => None
  end.

(** A double keeps 53 significant bits.  [roundToDouble n] is the double
    nearest to the exact value [n / 2^53], ties to the even significand, again
    as a numerator over [2^53]: the last [N.size n - 53] bits of [n] are
    rounded away.  (From [n = 1] on these values are normal doubles.) *)
Definition roundToDouble (n : N) : N :=
  let ulp := (2 ^ (N.size n - 53))%N in
  let q := (n / ulp)%N in
  let rest := (n mod ulp)%N in
  if ((ulp <? 2 * rest) || ((2 * rest =? ulp) && N.odd q))%N
  then ((q + 1) * ulp)%N
  else (q * ulp)%N.

(** [Math.random()] returns a multiple [k / 2^53] of [2^-53] with
    [0 <= k < 2^53]; the model carries the numerator [k].
    [Math.floor(Math.random() * VOICE_RESPONSES.length)] (line 148): the
    product is the double nearest to [k * 6 / 2^53], and its floor is taken. *)
Definition randomIndex (k : N) : N :=
  (roundToDouble (k * N.of_nat (List.length VOICE_RESPONSES)) / 2 ^ 53)%N.

(** [VOICE_RESPONSES[...]] (line 148). *)
Definition randomResponse (k : N) : JsText :=
  match nth_error VOICE_RESPONSES (N.to_nat (randomIndex k)) with
  | Some s => Text s
  | None => Undefined
  end.

(** ** Events of the speech back ends *)

(** The argument of [recognition.onresult]: [firstAlternative] is
    [event.results[0][0].transcript] when [event.results],
    [event.results[0]] and [event.results[0][0]] are all there. *)
Record SpeechRecognitionEvent : Type := mkRecognitionEvent {
  firstAlternative : option string
}.

(** The argument of [Voice.onSpeechResults]: [e.value]. *)
Record SpeechResultsEvent : Type := mkResultsEvent {
  value : option (list string)
}.

(** The argument of [Voice.onSpeechError]: [e.error], and in it [message]. *)
Record SpeechErrorEvent : Type := mkErrorEvent {
  errorMessage : option (option string)
}.

(** [e.error?.message] *)
Definition error_message (e : SpeechErrorEvent) : option string :=
  match errorMessage e with
  | Some m => m
  | None => None
  end.

(** ** Handlers *)

(** Lines 62-69. *)
Definition Voice_onSpeechResults (e : SpeechResultsEvent) : Action :=
  setIsListening false ;;
  setIsProcessing false ;;
  onListeningChange false ;;
  match value e with
  | Some (first :: _) => onVoiceResult (Text first)
  | _ => skip
  end.

(** Lines 70-75. *)
Definition Voice_onSpeechError (e : SpeechErrorEvent) : Action :=
  setIsListening false ;;
  setIsProcessing false ;;
  setError (Some ("Voice error: " ++ orElse (error_message e) "Unknown error")%string) ;;
  onListeningChange false.

(** Lines 122-129. *)
Definition recognition_onresult (event : SpeechRecognitionEvent) : Action :=
  setIsListening false ;;
  setIsProcessing false ;;
  onListeningChange false ;;
  match firstAlternative event with
  | Some transcript => onVoiceResult (Text transcript)
  | None => skip
  end.

(** Lines 130-135. *)
Definition recognition_onerror (event_error : string) : Action :=
  setIsListening false ;;
  setIsProcessing false ;;
  setError (Some ("Voice error: " ++ event_error)%string) ;;
  onListeningChange false.

(** Lines 136-140. *)
Definition recognition_onend : Action :=
  setIsListening false ;;
  setIsProcessing false ;;
  onListeningChange false.

(** The [catch] block of lines 159-164, run when [Voice.start] rejects with
    an [e] whose [message] is [m]. *)
Definition Voice_start_catch (m : option string) : Action :=
  setIsListening false ;;
  setIsProcessing false ;;
  setError (Some ("Voice error: " ++ orElse m "Unknown error")%string) ;;
  onListeningChange false.

(** Lines 108-166. *)
Definition startListening : Action := fun w =>
  let w := setError None w in
  if negb (isEnabled w) then w
  else
    (setIsListening true ;;
     setIsProcessing false ;;
     onListeningChange true ;;
     match platform w with
     | Web true => startRecognition
     | Web false => setTimeout SimulatePhase 3000
     | Mobile => Voice_start
     end) w.

(** Lines 169-180. *)
Definition stopListening : Action := fun w =>
  (setIsListening false ;;
   setIsProcessing false ;;
   onListeningChange false ;;
   match platform w with
   | Web _ => skip
   | Mobile => Voice_stop
   end) w.

(** Lines 182-188. *)
Definition toggleListening : Action := fun w =>
  if isListening (ui w) then stopListening w else startListening w.

(** The button: [onPress={toggleListening}] with
    [disabled={!isEnabled || isProcessing}] (lines 207-208). *)
Definition press : Action := fun w =>
  if negb (isEnabled w) || isProcessing (ui w) then w else toggleListening w.

(** Lines 190-195. *)
Definition getStatusText (s : State) : string :=
  match truthy (error s) with
  | Some message => message
  | None =>
      if isProcessing s then "Memproses..."
      else if isListening s then "Mendengarkan..."
      else "Tekan untuk berbicara"
  end.

(** Line 236. *)
Definition statusText (w : World) : string :=
  if isEnabled w then getStatusText (ui w) else "Voice tidak tersedia".

(** Which of its three looks the button has: the case split of
    [getButtonColors] (lines 197-201), [isProcessing] tested first. *)
Inductive Phase : Type := Idle | Listening | Processing.

Definition phase (s : State) : Phase :=
  if isProcessing s then Processing
  else if isListening s then Listening
  else Idle.

(** ** Timers *)

(** The earliest due time among the pending timers. *)
Fixpoint earliest (l : list Timer) : option N :=
  match l with
  | [] => None
  | (due, _) :: rest =>
      match earliest rest with
      | Some m => Some (N.min due m)
      | None => Some due
      end
  end.

(** Takes out the first registered timer that is due at [d]. *)
Fixpoint takeDue (d : N) (l : list Timer) : option (TimerTask * list Timer) :=
  match l with
  | [] => None
  | (due, task) :: rest =>
      if (due =? d)%N then Some (task, rest)
      else
        match takeDue d rest with
        | Some (found, rest') => Some (found, (due, task) :: rest')
        | None => None
        end
  end.

(** What running the pending timers to the end can still cost: the first
    callback registers the second. *)
Definition work (t : Timer) : nat :=
  match snd t with
  | SimulatePhase => 2
  | SimulateResult => 1
  end.

Definition pendingWork (l : list Timer) : nat :=
  fold_right (fun t n => work t + n) 0 l.

(** ** The component driven by its environment *)

Inductive Event : Type :=
| CallStart                                  (* startListening() *)
| CallStop                                   (* stopListening() *)
| Press                                      (* a tap on the button *)
| SetEnabled (enabled : bool)                (* the isEnabled prop changes *)
| Elapse (ms : N)                            (* time passes *)
| WebResult (event : SpeechRecognitionEvent) (* recognition.onresult fires *)
| WebError (event_error : string)            (* recognition.onerror fires *)
| WebEnd                                     (* recognition.onend fires *)
| SpeechResults (e : SpeechResultsEvent)     (* Voice.onSpeechResults fires *)
| SpeechError (e : SpeechErrorEvent)         (* Voice.onSpeechError fires *)
| VoiceStartRejected (message : option string) (* await Voice.start throws *)
| VoiceStartResolved.

Section Run.

(** The numerator of the [n]-th value that [Math.random()] returns. *)
Variable random : nat -> N.

(** The outer callback, lines 144-153, and the inner one, lines 147-152. *)
Definition fire (task : TimerTask) : Action :=
  match task with
  | SimulatePhase =>
      setIsListening false ;;
      setIsProcessing true ;;
      setTimeout SimulateResult 1000
  | SimulateResult =>
      fun w =>
        let randomResponse := randomResponse (random (randomCalls w)) in
        (countRandomCall ;;
         onVoiceResult randomResponse ;;
         setIsProcessing false ;;
         onListeningChange false) w
  end.

(** Runs the timers that are due by [target], earliest first and in the
    order they were registered, then sets the clock to [target]. *)
Fixpoint runDue (fuel : nat) (target : N) (w : World) : World :=
  match fuel with
  | O => setClock (N.max (clock w) target) w
  | S fuel' =>
      match earliest (timers w) with
      | Some d =>
          if (d <=? target)%N then
            match takeDue d (timers w) with
            | Some (task, rest) =>
                runDue fuel' target
                  (fire task (setTimers rest (setClock (N.max (clock w) d) w)))
            | None => setClock (N.max (clock w) target) w
            end
          else setClock (N.max (clock w) target) w
      | None => setClock (N.max (clock w) target) w
      end
  end.

Definition elapse (ms : N) : Action := fun w =>
  runDue (pendingWork (timers w)) (clock w + ms)%N w.

(** The handlers of a recognition object exist once [startListening] has
    made one; those of [Voice] are installed off the web (lines 59-61); the
    [catch] block runs for a [Voice.start] that is still pending. *)
Definition step (w : World) (e : Event) : World :=
  match e with
  | CallStart => startListening w
  | CallStop => stopListening w
  | Press => press w
  | SetEnabled b => setEnabled b w
  | Elapse ms => elapse ms w
  | WebResult event =>
      if (0 <? recognitions w)%nat then recognition_onresult event w else w
  | WebError event_error =>
      if (0 <? recognitions w)%nat then recognition_onerror event_error w else w
  | WebEnd =>
      if (0 <? recognitions w)%nat then recognition_onend w else w
  | SpeechResults e =>
      match platform w with
      | Mobile => Voice_onSpeechResults e w
      | Web _ => w
      end
  | SpeechError e =>
      match platform w with
      | Mobile => Voice_onSpeechError e w
      | Web _ => w
      end
  | VoiceStartRejected m =>
      if (0 <? voiceStarts w)%nat
      then (settleVoiceStart ;; Voice_start_catch m) w
      else w
  | VoiceStartResolved => settleVoiceStart w
  end.

Definition run (w : World) (es : list Event) : World := fold_left step es w.

End Run.

(** The calls made from [w] on, in a world [w'] that [w] has become. *)
Definition callsSince (w w' : World) : list Callback :=
  skipn (List.length (trace w)) (calls w').

(** ** Views of the state and of the events *)

(** The session states and the status mapping as the specification words
    them, to be compared with [getStatusText]. *)
Module Spec.

Inductive SessionState : Type :=
| Idle
| Listening
| Processing
| Error (message : string).

Definition statusText (s : SessionState) : string :=
  match s with
  | Error message => message
  | Processing => "Memproses..."
  | Listening => "Mendengarkan..."
  | Idle => "Tekan untuk berbicara"
  end.

End Spec.

(** The session state that the three cells stand for, an error first, then
    processing, then listening. *)
Definition sessionState (s : State) : Spec.SessionState :=
  match truthy (error s) with
  | Some message => Spec.Error message
  | None =>
      match phase s with
      | Processing => Spec.Processing
      | Listening => Spec.Listening
      | Idle => Spec.Idle
      end
  end.

(** A stored error message is never empty in a world the component can get
    into, so it is always the one shown. *)
Definition normalized (s : State) : Prop :=
  match error s with
  | Some message => exists d, message = ("Voice error: " ++ d)%string
  | None => True
  end.

(** What a result event carries for [onVoiceResult], if anything. *)
Definition forwarded (first : option string) : list Callback :=
  match first with
  | Some transcript => [VoiceResult (Text transcript)]
  | None => []
  end.

(** ** The look of the button *)

(** Lines 197-201. *)
Definition getButtonColors (s : State) : string * string :=
  if isProcessing s then ("#F59E0B", "#FBBF24")
  else if isListening s then ("#7C3AED", "#A855F7")
  else ("#DC2626", "#EF4444").

(** The icon inside the button, lines 224-230: [isListening] is tested
    first here. *)
Inductive Icon : Type := MicOff | Volume2 | Mic.

Definition icon (s : State) : Icon :=
  if isListening s then MicOff
  else if isProcessing s then Volume2
  else Mic.

(** The three wave rings are rendered under [isListening &&] (line 212). *)
Definition wavesShown (s : State) : bool := isListening s.

(** ** Counting calls *)

Definition isResult (c : Callback) : bool :=
  match c with
  | VoiceResult _ => true
  | ListeningChange _ => false
  end.

Definition isStart (c : Callback) : bool :=
  match c with
  | ListeningChange b => b
  | VoiceResult _ => false
  end.

Definition results (w : World) : nat :=
  List.length (filter isResult (calls w)).

Definition starts (w : World) : nat :=
  List.length (filter isStart (calls w)).

(** What holds of every world the component gets into: the two flags are
    never set together, and each platform only ever touches its own back
    end. *)
Definition consistent (w : World) : Prop :=
  isListening (ui w) && isProcessing (ui w) = false /\
  match platform w with
  | Web true =>
      timers w = [] /\ voiceStarts w = 0 /\ voiceStops w = 0 /\
      isProcessing (ui w) = false
  | Web false =>
      recognitions w = 0 /\ voiceStarts w = 0 /\ voiceStops w = 0
  | Mobile =>
      timers w = [] /\ recognitions w = 0 /\ isProcessing (ui w) = false
  end.

(** Events that neither ask for a start nor report an error. *)
Definition keepsError (e : Event) : bool :=
  match e with
  | CallStart | Press => false
  | WebError _ | SpeechError _ | VoiceStartRejected _ => false
  | _ => true
  end.

(** Every [onVoiceResult] in [l] comes right after an
    [onListeningChange(false)]. *)
Definition resultsAfterFalse (l : list Callback) : Prop :=
  forall i t,
    nth_error l i = Some (VoiceResult t) ->
    exists j, i = S j /\ nth_error l j = Some (ListeningChange false).

(** Every [onVoiceResult] in [l] is followed at once by an
    [onListeningChange(false)]. *)
Definition resultsBeforeFalse (l : list Callback) : Prop :=
  forall i t,
    nth_error l i = Some (VoiceResult t) ->
    nth_error l (S i) = Some (ListeningChange false).

(** On the web without an engine: every start request is either still
    waiting on a timer or has delivered its result. *)
Definition simulatedBalance (w : World) : Prop :=
  platform w = Web false /\
  recognitions w = 0 /\
  results w + List.length (timers w) = starts w.

(** With the browser engine: one recognition object per start request. *)
Definition browserBalance (w : World) : Prop :=
  platform w = Web true /\
  timers w = [] /\
  recognitions w = starts w.

(** Off the simulated fallback, with the results in their place. *)
Definition orderedReal (w : World) : Prop :=
  platform w <> Web false /\
  timers w = [] /\
  resultsAfterFalse (calls w).

(** On the simulated fallback, with the results in their place. *)
Definition orderedSimulated (w : World) : Prop :=
  platform w = Web false /\
  recognitions w = 0 /\
  resultsBeforeFalse (calls w).

(** * Properties *)

(** ** Timers *)

Lemma earliest_none (l : list Timer) : earliest l = None -> l = [].
Proof.
  destruct l as [|[due task] rest]; [reflexivity|].
  simpl. destruct (earliest rest); discriminate.
Qed.

Lemma earliest_lower_bound (l : list Timer) (d : N) :
  earliest l = Some d -> forall t, In t l -> (d <= fst t)%N.
Proof.
  revert d. induction l as [|[due task] rest IH]; intros d Hd t Ht.
  - destruct Ht.
  - simpl in Hd. destruct (earliest rest) as [m|] eqn:Hm.
    + injection Hd as <-. destruct Ht as [<-|Ht]; simpl.
      * apply N.le_min_l.
      * specialize (IH m eq_refl t Ht). lia.
    + injection Hd as <-. apply earliest_none in Hm. subst rest.
      destruct Ht as [<-|[]]. simpl. lia.
Qed.

Lemma earliest_takeDue (l : list Timer) (d : N) :
  earliest l = Some d ->
  exists task rest,
    takeDue d l = Some (task, rest) /\
    pendingWork l = work (d, task) + pendingWork rest.
Proof.
  revert d. induction l as [|[due task] rest IH]; intros d Hd.
  - discriminate.
  - simpl in Hd. simpl takeDue.
    destruct (N.eqb_spec due d) as [->|Hne].
    + exists task, rest. split; reflexivity.
    + destruct (earliest rest) as [m|] eqn:Hm.
      * injection Hd as Hd.
        assert (m = d) as -> by lia.
        destruct (IH d eq_refl) as (task' & rest' & -> & Hw).
        exists task', ((due, task) :: rest'). split; [reflexivity|].
        simpl pendingWork. rewrite Hw. unfold work. simpl. lia.
      * injection Hd as Hd. contradiction.
Qed.

(** ** The handlers only ever add to the trace *)

Section RunFacts.

Variable random : nat -> N.

Lemma fire_trace (task : TimerTask) (w : World) :
  exists l, trace (fire random task w) = trace w ++ l.
Proof.
  destruct task; simpl.
  - exists []. rewrite app_nil_r. reflexivity.
  - eexists. cbv [andThen countRandomCall onVoiceResult onListeningChange
                  notify setIsProcessing withUi trace].
    rewrite <- app_assoc. reflexivity.
Qed.

Lemma runDue_trace (fuel : nat) (target : N) (w : World) :
  exists l, trace (runDue random fuel target w) = trace w ++ l.
Proof.
  revert w. induction fuel as [|fuel IH]; intro w; simpl.
  - exists []. rewrite app_nil_r. reflexivity.
  - destruct (earliest (timers w)) as [d|];
      [|exists []; rewrite app_nil_r; reflexivity].
    destruct (d <=? target)%N;
      [|exists []; rewrite app_nil_r; reflexivity].
    destruct (takeDue d (timers w)) as [[task rest]|];
      [|exists []; rewrite app_nil_r; reflexivity].
    destruct (IH (fire random task
                    (setTimers rest (setClock (N.max (clock w) d) w))))
      as [l2 ->].
    destruct (fire_trace task
                (setTimers rest (setClock (N.max (clock w) d) w)))
      as [l1 ->].
    exists (l1 ++ l2). simpl. rewrite app_assoc. reflexivity.
Qed.

(** Every step keeps the calls made so far and may add some. *)
Lemma step_trace (w : World) (e : Event) :
  exists l, trace (step random w e) = trace w ++ l.
Proof.
  destruct e; simpl.
  - unfold startListening. simpl.
    destruct (isEnabled w); simpl.
    + destruct (platform w) as [[|]|]; eexists; reflexivity.
    + exists []. rewrite app_nil_r. reflexivity.
  - unfold stopListening.
    destruct (platform w); eexists; reflexivity.
  - unfold press, toggleListening, startListening, stopListening.
    destruct (isEnabled w) eqn:He; simpl;
      [|exists []; rewrite app_nil_r; reflexivity].
    destruct (isProcessing (ui w)); simpl;
      [exists []; rewrite app_nil_r; reflexivity|].
    destruct (isListening (ui w)).
    + destruct (platform w); eexists; reflexivity.
    + simpl. rewrite He. simpl.
      destruct (platform w) as [[|]|]; eexists; reflexivity.
  - exists []. rewrite app_nil_r. reflexivity.
  - apply runDue_trace.
  - destruct (0 <? recognitions w)%nat;
      [|exists []; rewrite app_nil_r; reflexivity].
    unfold recognition_onresult.
    destruct (firstAlternative event); simpl.
    + eexists. rewrite <- app_assoc. reflexivity.
    + eexists. reflexivity.
  - destruct (0 <? recognitions w)%nat;
      [|exists []; rewrite app_nil_r; reflexivity].
    eexists. reflexivity.
  - destruct (0 <? recognitions w)%nat;
      [|exists []; rewrite app_nil_r; reflexivity].
    eexists. reflexivity.
  - destruct (platform w); [exists []; rewrite app_nil_r; reflexivity|].
    unfold Voice_onSpeechResults.
    destruct (value e) as [[|first others]|]; simpl.
    + eexists. reflexivity.
    + eexists. rewrite <- app_assoc. reflexivity.
    + eexists. reflexivity.
  - destruct (platform w); [exists []; rewrite app_nil_r; reflexivity|].
    eexists. reflexivity.
  - destruct (0 <? voiceStarts w)%nat;
      [|exists []; rewrite app_nil_r; reflexivity].
    eexists. reflexivity.
  - exists []. rewrite app_nil_r. reflexivity.
Qed.

(** ** Elapsing time fires every timer that is due *)

Lemma fire_work (task : TimerTask) (d : N) (rest : list Timer) (w : World) :
  S (pendingWork (timers (fire random task (setTimers rest w))))
  <= work (d, task) + pendingWork rest.
Proof.
  destruct task; simpl.
  - unfold pendingWork. rewrite fold_right_app. simpl.
    induction rest as [|t rest IH]; simpl; lia.
  - lia.
Qed.

Lemma runDue_settles (fuel : nat) (target : N) (w : World) :
  pendingWork (timers w) <= fuel ->
  forall t, In t (timers (runDue random fuel target w)) ->
            (target < fst t)%N.
Proof.
  revert w. induction fuel as [|fuel IH]; intros w Hfuel t Ht.
  - simpl in Ht. destruct (timers w) as [|t0 l] eqn:Hl; [destruct Ht|].
    simpl in Hfuel. destruct t0 as [d0 [|]]; simpl in Hfuel; lia.
  - simpl in Ht.
    destruct (earliest (timers w)) as [d|] eqn:Hd.
    + destruct (N.leb_spec d target) as [Hle|Hgt].
      * destruct (earliest_takeDue _ _ Hd) as (task & rest & Htake & Hw).
        rewrite Htake in Ht.
        apply (IH _ ) in Ht; [exact Ht|].
        pose proof (fire_work task d rest (setClock (N.max (clock w) d) w)).
        lia.
      * simpl in Ht. pose proof (earliest_lower_bound _ _ Hd t Ht). lia.
    + apply earliest_none in Hd. simpl in Ht. rewrite Hd in Ht. destruct Ht.
Qed.

(** The fuel [elapse] gives itself is enough: afterwards no pending timer
    is due. *)
Lemma elapse_settles (ms : N) (w : World) :
  forall t, In t (timers (elapse random ms w)) ->
            (clock w + ms < fst t)%N.
Proof. apply runDue_settles. apply Nat.le_refl. Qed.

Lemma runDue_clock (fuel : nat) (target : N) (w : World) :
  (clock w <= target)%N ->
  clock (runDue random fuel target w) = target.
Proof.
  revert w. induction fuel as [|fuel IH]; intros w Hw; simpl.
  - lia.
  - destruct (earliest (timers w)) as [d|]; [|simpl; lia].
    destruct (N.leb_spec d target); [|simpl; lia].
    destruct (takeDue d (timers w)) as [[task rest]|]; [|simpl; lia].
    apply IH. destruct task; simpl; lia.
Qed.

Lemma elapse_clock (ms : N) (w : World) :
  clock (elapse random ms w) = (clock w + ms)%N.
Proof. apply runDue_clock. lia. Qed.

End RunFacts.

(** ** Reading the trace *)

Lemma callsSince_app (w w' : World) (l : list Callback) :
  trace w' = trace w ++ l -> callsSince w w' = l.
Proof.
  intro H. unfold callsSince, calls. rewrite H.
  rewrite skipn_app, skipn_all2 by apply Nat.le_refl.
  rewrite Nat.sub_diag. reflexivity.
Qed.

(** Closes a goal on [callsSince] once both worlds are evaluated far enough
    to show the calls added. *)
Ltac since :=
  erewrite callsSince_app by (cbn; try rewrite <- !app_assoc; reflexivity);
  reflexivity.

(** ** The corpus *)

Lemma roundToDouble_cases (n : N) :
  let ulp := (2 ^ (N.size n - 53))%N in
  roundToDouble n = (n / ulp * ulp)%N \/
  (roundToDouble n = ((n / ulp + 1) * ulp)%N /\ (ulp <= 2 * (n mod ulp))%N).
Proof.
  intro ulp. unfold roundToDouble. fold ulp.
  generalize (n / ulp)%N (n mod ulp)%N. clearbody ulp. intros q rest.
  destruct (N.ltb_spec ulp (2 * rest)) as [Hlt|Hge]; cbn [orb andb].
  - right. split; [reflexivity|lia].
  - destruct (N.eqb_spec (2 * rest) ulp) as [Heq|Hne]; cbn [orb andb].
    + destruct (N.odd q); [right; split; [reflexivity|lia]|].
      left. reflexivity.
    + left. reflexivity.
Qed.

Lemma size_below (n b : N) : (n < 2 ^ b)%N -> (N.size n <= b)%N.
Proof.
  intro H. destruct (N.le_gt_cases (N.size n) b) as [Hle|Hgt]; [exact Hle|].
  exfalso. pose proof (N.size_le n) as Hsize.
  assert (Hpow : (2 ^ N.succ b <= 2 ^ N.size n)%N)
    by (apply N.pow_le_mono_r; lia).
  rewrite N.pow_succ_r' in Hpow. rewrite N.succ_double_spec in Hsize.
  revert H Hsize Hpow. generalize (2 ^ b)%N (2 ^ N.size n)%N. lia.
Qed.

(** The rounded product stays below 6: the index is always in range. *)
Lemma randomIndex_in_range (k : N) :
  (k < 2 ^ 53)%N -> (randomIndex k < 6)%N.
Proof.
  intro Hk. unfold randomIndex.
  change (N.of_nat (List.length VOICE_RESPONSES)) with 6%N.
  set (n := (k * 6)%N).
  assert (Hn : (n <= 6 * 2 ^ 53 - 6)%N) by (subst n; lia).
  assert (Hsize : (N.size n <= 56)%N).
  { apply size_below. change (2 ^ 56)%N with (8 * 2 ^ 53)%N. lia. }
  set (ulp := (2 ^ (N.size n - 53))%N).
  assert (Hulp : (0 < ulp <= 8)%N).
  { subst ulp. split.
    - apply N.neq_0_lt_0. apply N.pow_nonzero. discriminate.
    - change 8%N with (2 ^ 3)%N. apply N.pow_le_mono_r; lia. }
  pose proof (N.Div0.div_mod n ulp) as Hdiv.
  apply N.Div0.div_lt_upper_bound.
  destruct (roundToDouble_cases n) as [H|[H Hrest]]; fold ulp in H; rewrite H;
    clear H.
  - clearbody ulp n. clear Hsize. revert Hdiv.
    generalize (n / ulp)%N (n mod ulp)%N. intros q rest Hdiv. nia.
  - fold ulp in Hrest. clearbody ulp n. clear Hsize. revert Hdiv Hrest.
    generalize (n / ulp)%N (n mod ulp)%N. intros q rest Hdiv Hrest. nia.
Qed.

Lemma randomResponse_in_corpus (k : N) :
  (k < 2 ^ 53)%N ->
  exists s, randomResponse k = Text s /\ In s VOICE_RESPONSES.
Proof.
  intro Hk. unfold randomResponse.
  pose proof (randomIndex_in_range k Hk) as Hindex.
  destruct (nth_error VOICE_RESPONSES (N.to_nat (randomIndex k)))
    as [s|] eqn:Hnth.
  - exists s. split; [reflexivity|]. eapply nth_error_In. exact Hnth.
  - apply nth_error_None in Hnth.
    change (List.length VOICE_RESPONSES) with 6 in Hnth. lia.
Qed.

(** ** One undisturbed session of the simulated fallback *)

Section SimulatedSession.

Variable random : nat -> N.
Variable w : World.
Hypothesis Hweb : platform w = Web false.
Hypothesis Henabled : isEnabled w = true.
Hypothesis Hquiet : timers w = [].

Let listening := mkState true false None.
Let processing := mkState false true None.
Let idle := mkState false false None.

Lemma simulated_start :
  ui (startListening w) = listening /\
  trace (startListening w) = trace w ++ [ListeningChange true] /\
  timers (startListening w) = [((clock w + 3000)%N, SimulatePhase)] /\
  clock (startListening w) = clock w /\
  randomCalls (startListening w) = randomCalls w.
Proof.
  unfold startListening. simpl. rewrite Henabled, Hweb. simpl.
  rewrite Hquiet. repeat split.
Qed.

Lemma simulated_wait (ms : N) :
  (ms < 3000)%N ->
  ui (elapse random ms (startListening w)) = listening /\
  trace (elapse random ms (startListening w)) = trace (startListening w).
Proof.
  intro Hms.
  destruct simulated_start as (Hui & Htr & Htm & Hck & _).
  unfold elapse. rewrite Htm, Hck. simpl.
  rewrite Htm. simpl.
  destruct (N.leb_spec (clock w + 3000) (clock w + ms)); [lia|].
  simpl. split; [exact Hui|reflexivity].
Qed.

Lemma simulated_phase :
  let w2 := elapse random 3000 (startListening w) in
  ui w2 = processing /\
  trace w2 = trace (startListening w) /\
  timers w2 = [((clock w + 4000)%N, SimulateResult)] /\
  clock w2 = (clock w + 3000)%N /\
  randomCalls w2 = randomCalls w.
Proof.
  destruct simulated_start as (Hui & Htr & Htm & Hck & Hrc).
  unfold elapse. rewrite Htm, Hck. simpl.
  rewrite Htm. simpl.
  rewrite N.leb_refl, N.eqb_refl. simpl.
  replace (N.max (clock (startListening w)) (clock w + 3000))
    with (clock w + 3000)%N by (rewrite Hck; lia).
  destruct (N.leb_spec (clock w + 3000 + 1000) (clock w + 3000)); [lia|].
  simpl. rewrite Hui. repeat split.
  - f_equal. f_equal. lia.
  - lia.
  - exact Hrc.
Qed.

Lemma simulated_result :
  let w2 := elapse random 3000 (startListening w) in
  let w3 := elapse random 1000 w2 in
  ui w3 = idle /\
  trace w3 =
    trace w2 ++
    [VoiceResult (randomResponse (random (randomCalls w)));
     ListeningChange false] /\
  timers w3 = [].
Proof.
  destruct simulated_phase as (Hui & Htr & Htm & Hck & Hrc).
  cbv zeta in *.
  set (w2 := elapse random 3000 (startListening w)) in *.
  unfold elapse. rewrite Htm, Hck. simpl.
  rewrite Htm. simpl.
  replace (clock w + 3000 + 1000)%N with (clock w + 4000)%N by lia.
  rewrite N.leb_refl, N.eqb_refl. simpl.
  rewrite Hui, Hrc. simpl. rewrite <- app_assoc. repeat split.
Qed.

End SimulatedSession.

(** ** Status text *)


Lemma runDue_error (random : nat -> N) (fuel : nat) (target : N) (w : World) :
  error (ui (runDue random fuel target w)) = error (ui w).
Proof.
  revert w. induction fuel as [|fuel IH]; intro w; simpl; [reflexivity|].
  destruct (earliest (timers w)) as [d|]; [|reflexivity].
  destruct (d <=? target)%N; [|reflexivity].
  destruct (takeDue d (timers w)) as [[task rest]|]; [|reflexivity].
  rewrite IH. destruct task; reflexivity.
Qed.

Lemma step_normalized (random : nat -> N) (w : World) (e : Event) :
  normalized (ui w) -> normalized (ui (step random w e)).
Proof.
  unfold normalized. intro H.
  destruct e; simpl.
  - unfold startListening. simpl.
    destruct (isEnabled w); simpl; [|exact I].
    destruct (platform w) as [[|]|]; exact I.
  - unfold stopListening. destruct (platform w); exact H.
  - unfold press, toggleListening.
    destruct (negb (isEnabled w) || isProcessing (ui w)); [exact H|].
    destruct (isListening (ui w)).
    + unfold stopListening. destruct (platform w); exact H.
    + unfold startListening. simpl.
      destruct (isEnabled w); simpl; [|exact I].
      destruct (platform w) as [[|]|]; exact I.
  - exact H.
  - unfold elapse. rewrite runDue_error. exact H.
  - destruct (0 <? recognitions w)%nat; [|exact H].
    unfold recognition_onresult. destruct (firstAlternative event); exact H.
  - destruct (0 <? recognitions w)%nat; [|exact H].
    simpl. eexists. reflexivity.
  - destruct (0 <? recognitions w)%nat; exact H.
  - destruct (platform w); [exact H|].
    unfold Voice_onSpeechResults.
    destruct (value e) as [[|first others]|]; exact H.
  - destruct (platform w); [exact H|]. simpl. eexists. reflexivity.
  - destruct (0 <? voiceStarts w)%nat; [|exact H].
    simpl. eexists. reflexivity.
  - exact H.
Qed.

Lemma run_normalized (random : nat -> N) (es : list Event) (w : World) :
  normalized (ui w) -> normalized (ui (run random w es)).
Proof.
  revert w. induction es as [|e es IH]; intros w H; [exact H|].
  simpl. apply IH. apply step_normalized. exact H.
Qed.

Lemma stored_error_is_shown
  (random : nat -> N) (p : Platform) (enabled : bool) (es : list Event)
  (message : string) :
  error (ui (run random (mount p enabled) es)) = Some message ->
  sessionState (ui (run random (mount p enabled) es)) = Spec.Error message.
Proof.
  intro H.
  pose proof (run_normalized random es (mount p enabled) I) as Hn.
  unfold normalized in Hn. unfold sessionState. rewrite H in *.
  destruct Hn as [d ->]. reflexivity.
Qed.

(** ** Start while disabled *)

(** C9, as stated, fails: after an error on the phone and the [isEnabled]
    prop turning false, a start request wipes the stored error message. *)
Lemma disabled_start_clears_error :
  let w := run (fun _ => 0%N) (mount Mobile true)
             [CallStart;
              SpeechError (mkErrorEvent (Some (Some "permission denied")));
              SetEnabled false] in
  isEnabled w = false /\
  error (ui w) = Some "Voice error: permission denied" /\
  error (ui (startListening w)) = None /\
  ui (startListening w) <> ui w.
Proof. repeat split. discriminate. Qed.

(** C9, amended.  With the enabled flag false a start request starts nothing
    and tells the Notifier nothing: both flags, the timers and the speech
    objects are as before and no callback is made; the stored error message
    is cleared; the status shown is the fixed "Voice tidak tersedia"; and a
    press of the button, which is disabled, changes nothing at all. *)
Theorem disabled_start (w : World) :
  isEnabled w = false ->
  isListening (ui (startListening w)) = isListening (ui w) /\
  isProcessing (ui (startListening w)) = isProcessing (ui w) /\
  error (ui (startListening w)) = None /\
  trace (startListening w) = trace w /\
  timers (startListening w) = timers w /\
  recognitions (startListening w) = recognitions w /\
  voiceStarts (startListening w) = voiceStarts w /\
  statusText (startListening w) = "Voice tidak tersedia" /\
  statusText w = "Voice tidak tersedia" /\
  press w = w.
Proof.
  intro H. unfold startListening, statusText, press. simpl.
  rewrite H. simpl. rewrite H. repeat split.
Qed.

Lemma disabled_start_witness :
  let w := setEnabled false (Voice_onSpeechError (mkErrorEvent None)
                               (mount Mobile true)) in
  isListening (ui (startListening w)) = isListening (ui w) /\
  isProcessing (ui (startListening w)) = isProcessing (ui w) /\
  error (ui (startListening w)) = None /\
  trace (startListening w) = trace w /\
  timers (startListening w) = timers w /\
  recognitions (startListening w) = recognitions w /\
  voiceStarts (startListening w) = voiceStarts w /\
  statusText (startListening w) = "Voice tidak tersedia" /\
  statusText w = "Voice tidak tersedia" /\
  press w = w.
Proof. intro w. apply (disabled_start w). reflexivity. Defined.

(** ** Stop when nothing is running *)

(** C4, as stated, fails: [stopListening] on the freshly mounted component
    calls [onListeningChange(false)]. *)
Lemma idle_stop_notifies :
  phase (ui (mount (Web true) true)) = Idle /\
  calls (stopListening (mount (Web true) true)) = [ListeningChange false] /\
  calls (stopListening (stopListening (mount (Web true) true))) =
    [ListeningChange false; ListeningChange false].
Proof. repeat split. Qed.

(** C4, amended.  A stop request in the idle state changes none of the three
    cells, schedules and creates nothing and delivers no result, but it does
    make one call, [onListeningChange(false)]; a second stop leaves the state
    as the first left it and makes that call once more.  The button does not
    ask for a stop from the idle state: a press there is a start request, or
    nothing when disabled. *)
Theorem idle_stop (w : World) :
  phase (ui w) = Idle ->
  ui (stopListening w) = ui w /\
  callsSince w (stopListening w) = [ListeningChange false] /\
  timers (stopListening w) = timers w /\
  recognitions (stopListening w) = recognitions w /\
  voiceStarts (stopListening w) = voiceStarts w /\
  ui (stopListening (stopListening w)) = ui (stopListening w) /\
  callsSince (stopListening w) (stopListening (stopListening w)) =
    [ListeningChange false] /\
  press w = (if isEnabled w then startListening w else w).
Proof.
  intro H. unfold phase in H.
  destruct w as [p en [l pr er] ck tm rc vs vp rn tr]. simpl in H.
  destruct pr; [discriminate|]. destruct l; [discriminate|].
  unfold stopListening. simpl.
  unfold press, toggleListening. simpl.
  destruct p; destruct en; simpl; repeat split; since.
Qed.

Lemma idle_stop_witness :
  let w := mount Mobile true in
  ui (stopListening w) = ui w /\
  callsSince w (stopListening w) = [ListeningChange false] /\
  timers (stopListening w) = timers w /\
  recognitions (stopListening w) = recognitions w /\
  voiceStarts (stopListening w) = voiceStarts w /\
  ui (stopListening (stopListening w)) = ui (stopListening w) /\
  callsSince (stopListening w) (stopListening (stopListening w)) =
    [ListeningChange false] /\
  press w = (if isEnabled w then startListening w else w).
Proof. intro w. apply (idle_stop w). reflexivity. Defined.

(** ** Start while a session is running *)

(** C3, as stated, fails: [startListening] has no guard of its own.  Called
    while listening it makes a second recognition object and calls
    [onListeningChange(true)] again; called while processing it also moves
    the state back to listening and registers a second chain of timers. *)
Lemma start_while_active_starts_again :
  let w := startListening (mount (Web true) true) in
  let v := run (fun _ => 0%N) (mount (Web false) true)
             [CallStart; Elapse 3000] in
  phase (ui w) = Listening /\
  recognitions w = 1 /\
  recognitions (startListening w) = 2 /\
  callsSince w (startListening w) = [ListeningChange true] /\
  phase (ui v) = Processing /\
  phase (ui (startListening v)) = Listening /\
  List.length (timers v) = 1 /\
  List.length (timers (startListening v)) = 2 /\
  callsSince v (startListening v) = [ListeningChange true].
Proof. repeat split. Qed.

(** C3, amended.  The button never starts a second session.  In every state
    that is listening or processing, a press creates no recognition object,
    registers no timer, calls [Voice.start] not once and never calls
    [onListeningChange(true)]; while processing the button is disabled and the
    press changes nothing at all; while listening (and enabled) the press is
    a stop request. *)
Theorem press_while_active (w : World) :
  phase (ui w) <> Idle ->
  recognitions (press w) = recognitions w /\
  timers (press w) = timers w /\
  voiceStarts (press w) = voiceStarts w /\
  ~ In (ListeningChange true) (callsSince w (press w)) /\
  (phase (ui w) = Processing -> press w = w) /\
  (phase (ui w) = Listening -> isEnabled w = true ->
   press w = stopListening w).
Proof.
  intro H. unfold phase in *. unfold press, toggleListening.
  assert (Hnone : callsSince w w = []).
  { apply (callsSince_app w w []). rewrite app_nil_r. reflexivity. }
  destruct (isEnabled w); simpl.
  - destruct (isProcessing (ui w)) eqn:Hp.
    + rewrite Hnone. repeat split; try tauto. discriminate.
    + destruct (isListening (ui w)) eqn:Hl; [|contradiction].
      assert (Hstop : callsSince w (stopListening w) = [ListeningChange false]).
      { unfold stopListening. destruct (platform w); since. }
      rewrite Hstop.
      unfold stopListening.
      destruct (platform w); simpl; repeat split;
        try discriminate; intros [E|[]]; discriminate.
  - rewrite Hnone. repeat split; try tauto.
    destruct (isProcessing (ui w)); [discriminate|].
    destruct (isListening (ui w)); [|contradiction]. discriminate.
Qed.

Lemma press_while_active_witness :
  let w := startListening (mount (Web true) true) in
  recognitions (press w) = recognitions w /\
  timers (press w) = timers w /\
  voiceStarts (press w) = voiceStarts w /\
  ~ In (ListeningChange true) (callsSince w (press w)) /\
  (phase (ui w) = Processing -> press w = w) /\
  (phase (ui w) = Listening -> isEnabled w = true ->
   press w = stopListening w).
Proof. intro w. apply (press_while_active w). discriminate. Defined.

(** ** When [onListeningChange] is called *)

Section Boundaries.

Variable random : nat -> N.



End Boundaries.




(** ** Results of the browser and of the phone *)

(** C2, as stated, fails twice over.  A first alternative that is the empty
    string, or nothing but blanks, is handed to [onVoiceResult] like any
    other; and nothing keeps count per session: when the engine reports
    results twice after one start request, [onVoiceResult] is called
    twice. *)
Lemma blank_and_repeated_results_are_forwarded :
  calls (run (fun _ => 0%N) (mount (Web true) true)
           [CallStart; WebResult (mkRecognitionEvent (Some ""))]) =
    [ListeningChange true; ListeningChange false; VoiceResult (Text "")] /\
  calls (run (fun _ => 0%N) (mount Mobile true)
           [CallStart; SpeechResults (mkResultsEvent (Some ["   "]))]) =
    [ListeningChange true; ListeningChange false; VoiceResult (Text "   ")] /\
  (let w := run (fun _ => 0%N) (mount Mobile true)
              [CallStart;
               SpeechResults (mkResultsEvent (Some ["ganti"]));
               SpeechResults (mkResultsEvent (Some ["ganti oli"]))] in
   starts w = 1 /\
   results w = 2 /\
   calls w =
     [ListeningChange true;
      ListeningChange false; VoiceResult (Text "ganti");
      ListeningChange false; VoiceResult (Text "ganti oli")]).
Proof. repeat split. Qed.

(** C2, amended.  Every result event of the browser or of the phone returns
    the component to idle and calls [onListeningChange(false)]; it calls
    [onVoiceResult] exactly when it carries a first alternative (browser:
    [event.results[0][0]]; phone: a non-empty [e.value]), once for that
    event, after that call and with that first transcript as it is, whatever
    its text; without one [onVoiceResult] is not called.  This holds in
    every state, so also for a second result event of the same session:
    there is no limit per session. *)
Theorem result_event_policy (w : World) :
  (forall event,
     phase (ui (recognition_onresult event w)) = Idle /\
     callsSince w (recognition_onresult event w) =
       ListeningChange false :: forwarded (firstAlternative event)) /\
  (forall e,
     phase (ui (Voice_onSpeechResults e w)) = Idle /\
     callsSince w (Voice_onSpeechResults e w) =
       ListeningChange false ::
       forwarded (match value e with Some l => head l | None => None end)).
Proof.
  split.
  - intros [[transcript|]]; split; try reflexivity;
      unfold recognition_onresult; since.
  - intros [[[|first others]|]]; split; try reflexivity;
      unfold Voice_onSpeechResults; since.
Qed.

(** ** Errors *)

(** C7, as stated, fails for the empty detail: the phone's handlers put
    "Unknown error" in its place, the browser's handler does not. *)
Lemma empty_detail_depends_on_adapter :
  let phone := run (fun _ => 0%N) (mount Mobile true)
                 [CallStart; SpeechError (mkErrorEvent (Some (Some "")))] in
  let browser := run (fun _ => 0%N) (mount (Web true) true)
                   [CallStart; WebError ""] in
  statusText phone = "Voice error: Unknown error" /\
  statusText phone <> ("Voice error: " ++ "")%string /\
  statusText browser = ("Voice error: " ++ "")%string.
Proof. repeat split. discriminate. Qed.

Lemma status_of_error (s : State) (d : string) :
  error s = Some ("Voice error: " ++ d)%string ->
  getStatusText s = ("Voice error: " ++ d)%string.
Proof. unfold getStatusText. intros ->. reflexivity. Qed.

(** C7, amended.  For every non-empty detail string [d], an error of the
    browser engine, an error event of the phone's engine and a rejected
    [Voice.start] all leave the status text exactly "Voice error: " followed
    by [d]; so "permission denied" surfaces as "Voice error: permission
    denied".  On the phone a missing or empty message surfaces as "Voice
    error: Unknown error". *)
Theorem error_normalization (w : World) (d : string) :
  d <> "" ->
  getStatusText (ui (recognition_onerror d w)) = ("Voice error: " ++ d)%string /\
  getStatusText (ui (Voice_onSpeechError (mkErrorEvent (Some (Some d))) w)) =
    ("Voice error: " ++ d)%string /\
  getStatusText (ui (Voice_start_catch (Some d) w)) =
    ("Voice error: " ++ d)%string /\
  (forall e, error_message e = None \/ error_message e = Some "" ->
     getStatusText (ui (Voice_onSpeechError e w)) =
       "Voice error: Unknown error") /\
  (forall m, m = None \/ m = Some "" ->
     getStatusText (ui (Voice_start_catch m w)) =
       "Voice error: Unknown error").
Proof.
  intro Hd.
  assert (Hphone :
            error (ui (Voice_onSpeechError (mkErrorEvent (Some (Some d))) w)) =
              Some ("Voice error: " ++ d)%string).
  { destruct d; [contradiction|reflexivity]. }
  assert (Hcatch :
            error (ui (Voice_start_catch (Some d) w)) =
              Some ("Voice error: " ++ d)%string).
  { destruct d; [contradiction|reflexivity]. }
  split; [|split; [|split; [|split]]].
  - apply status_of_error. reflexivity.
  - apply status_of_error. exact Hphone.
  - apply status_of_error. exact Hcatch.
  - intros e [H|H]; unfold Voice_onSpeechError; rewrite H; reflexivity.
  - intros m [->| ->]; reflexivity.
Qed.

Lemma error_normalization_witness :
  let w := startListening (mount Mobile true) in
  let d := "permission denied" in
  getStatusText (ui (recognition_onerror d w)) =
    "Voice error: permission denied" /\
  statusText (step (fun _ => 0%N) w
                (SpeechError (mkErrorEvent (Some (Some d))))) =
    "Voice error: permission denied" /\
  statusText (step (fun _ => 0%N) w (VoiceStartRejected (Some d))) =
    "Voice error: permission denied".
Proof.
  intros w d.
  destruct (error_normalization w d) as (Hbrowser & Hphone & Hcatch & _).
  - discriminate.
  - split; [exact Hbrowser|]. split; [exact Hphone|exact Hcatch].
Defined.

(** ** Stop does not cancel *)

(** C1 does not hold of the code.  On the web without a recognition engine,
    a start request followed at once by a stop request still delivers a
    phrase of the corpus four seconds later: [stopListening] clears no
    timer.  Stopped and started again through the button, the session that
    is running gets the phrase of the stopped one and then its own.  With the
    browser engine, a result that arrives after the stop request is delivered
    as well. *)
Theorem stop_leaves_timers_running (random : nat -> N) :
  calls (run random (mount (Web false) true)
           [CallStart; CallStop; Elapse 3000; Elapse 1000]) =
    [ListeningChange true; ListeningChange false;
     VoiceResult (randomResponse (random 0)); ListeningChange false] /\
  timers (run random (mount (Web false) true) [CallStart; CallStop]) =
    [(3000%N, SimulatePhase)] /\
  phase (ui (run random (mount (Web false) true)
               [CallStart; CallStop; Elapse 3000])) = Processing /\
  calls (run random (mount (Web false) true)
           [Press; Press; Press; Elapse 3000; Elapse 1000]) =
    [ListeningChange true; ListeningChange false; ListeningChange true;
     VoiceResult (randomResponse (random 0)); ListeningChange false;
     VoiceResult (randomResponse (random 1)); ListeningChange false] /\
  calls (run random (mount (Web true) true)
           [CallStart; CallStop;
            WebResult (mkRecognitionEvent (Some "ganti oli"))]) =
    [ListeningChange true; ListeningChange false;
     ListeningChange false; VoiceResult (Text "ganti oli")].
Proof. repeat split. Qed.

(** ** The simulated fallback: timing and corpus *)

(** C6 does not hold of the code in every idle state.  After a session
    that was started and stopped at once, the component is idle and enabled,
    yet the timers of the stopped session still run (the defect of C1): a
    start request followed by 3000 ms does move to processing, but the
    further 1000 ms bring two calls of [onVoiceResult], not one. *)
Theorem stale_timers_double_the_result (random : nat -> N) :
  let w := run random (mount (Web false) true) [Press; Press] in
  let w2 := elapse random 3000 (startListening w) in
  let w3 := elapse random 1000 w2 in
  phase (ui w) = Idle /\
  isEnabled w = true /\
  timers w = [(3000%N, SimulatePhase)] /\
  phase (ui (startListening w)) = Listening /\
  phase (ui w2) = Processing /\
  callsSince w2 w3 =
    [VoiceResult (randomResponse (random 0)); ListeningChange false;
     VoiceResult (randomResponse (random 1)); ListeningChange false].
Proof. repeat split. Qed.

(** X13.  With no recognition engine on the web, a start request in a world
    with no timer pending leaves the component listening for anything short
    of 3000 ms; at 3000 ms it is processing, and [onListeningChange(true)] is
    all that has been called; 1000 ms later it is idle and exactly one
    [onVoiceResult] has been made, with a phrase of the six-phrase corpus,
    followed by [onListeningChange(false)]. *)
Theorem simulated_timing_and_corpus (random : nat -> N) (w : World) :
  platform w = Web false ->
  isEnabled w = true ->
  timers w = [] ->
  (forall n, (random n < 2 ^ 53)%N) ->
  let w1 := startListening w in
  let w2 := elapse random 3000 w1 in
  let w3 := elapse random 1000 w2 in
  VOICE_RESPONSES =
    [ "bagaimana cara ganti oli"; "kenapa mesin overheat";
      "cara check aki mobil"; "suara mesin kasar";
      "rem blong penyebabnya"; "ac mobil tidak dingin" ] /\
  phase (ui w1) = Listening /\
  (forall ms, (ms < 3000)%N ->
     phase (ui (elapse random ms w1)) = Listening /\
     callsSince w (elapse random ms w1) = [ListeningChange true]) /\
  phase (ui w2) = Processing /\
  callsSince w w2 = [ListeningChange true] /\
  phase (ui w3) = Idle /\
  exists s,
    In s VOICE_RESPONSES /\
    callsSince w2 w3 = [VoiceResult (Text s); ListeningChange false].
Proof.
  intros Hweb Hen Hquiet Hrandom w1 w2 w3.
  destruct (simulated_start w Hweb Hen Hquiet) as (Hui1 & Htr1 & _).
  destruct (simulated_phase random w Hweb Hen Hquiet) as (Hui2 & Htr2 & _).
  destruct (simulated_result random w Hweb Hen Hquiet) as (Hui3 & Htr3 & _).
  cbv zeta in Hui2, Htr2, Hui3, Htr3.
  fold w1 in Hui1, Htr1, Hui2, Htr2, Hui3, Htr3.
  fold w2 in Hui2, Htr2, Hui3, Htr3. fold w3 in Hui3, Htr3.
  split; [reflexivity|].
  split; [rewrite Hui1; reflexivity|].
  split.
  { intros ms Hms.
    destruct (simulated_wait random w Hweb Hen Hquiet ms Hms) as [Hui Htr].
    fold w1 in Hui, Htr. split; [rewrite Hui; reflexivity|].
    rewrite (callsSince_app w _ [ListeningChange true]);
      [reflexivity|]. rewrite Htr. exact Htr1. }
  split; [rewrite Hui2; reflexivity|].
  split.
  { rewrite (callsSince_app w _ [ListeningChange true]);
      [reflexivity|]. rewrite Htr2. exact Htr1. }
  split; [rewrite Hui3; reflexivity|].
  destruct (randomResponse_in_corpus (random (randomCalls w)) (Hrandom _))
    as (s & Hs & Hin).
  exists s. split; [exact Hin|].
  rewrite (callsSince_app w2 w3 _ Htr3). simpl. rewrite Hs. reflexivity.
Qed.

Lemma simulated_timing_and_corpus_witness :
  let random := fun _ : nat => (2 ^ 52)%N in
  let w := mount (Web false) true in
  let w1 := startListening w in
  let w2 := elapse random 3000 w1 in
  let w3 := elapse random 1000 w2 in
  phase (ui (elapse random 2999 w1)) = Listening /\
  phase (ui w2) = Processing /\
  callsSince w w2 = [ListeningChange true] /\
  phase (ui w3) = Idle /\
  exists s,
    In s VOICE_RESPONSES /\
    callsSince w2 w3 = [VoiceResult (Text s); ListeningChange false].
Proof.
  intros random w w1 w2 w3.
  destruct (simulated_timing_and_corpus random w)
    as (_ & _ & Hwait & Hphase & Hcalls & Hidle & Hresult).
  - reflexivity.
  - reflexivity.
  - reflexivity.
  - intro n. reflexivity.
  - split; [apply (Hwait 2999%N); reflexivity|].
    split; [exact Hphase|]. split; [exact Hcalls|].
    split; [exact Hidle|exact Hresult].
Defined.

(** ** Which callback comes first *)

(** C10 does not hold of the code for every session of the fallback.  The
    two orders do hold in every run, but a result is not always delivered
    while processing: with the button alone, a session stopped after 500 ms
    and a second one started at once, the timers of the stopped session (the
    defect of C1) deliver its result at 4000 ms and clear [isProcessing];
    the second session, never stopped, is then idle when its own result is
    delivered at 4500 ms. *)
Theorem stale_timer_ends_processing_early (random : nat -> N) :
  let w := run random (mount (Web false) true)
             [Press; Elapse 500; Press; Press; Elapse 3500] in
  calls w =
    [ListeningChange true; ListeningChange false; ListeningChange true;
     VoiceResult (randomResponse (random 0)); ListeningChange false] /\
  phase (ui w) = Idle /\
  timers w = [(4500%N, SimulateResult)] /\
  callsSince w (step random w (Elapse 500)) =
    [VoiceResult (randomResponse (random 1)); ListeningChange false].
Proof. repeat split. Qed.

(** * Invariants of every run *)

Section Invariants.

Variable random : nat -> N.

(** What the timers keep, they keep however many of them fire. *)
Lemma runDue_invariant (P : World -> Prop) :
  (forall w t, P w -> P (setClock t w)) ->
  (forall w d task rest,
     P w -> takeDue d (timers w) = Some (task, rest) ->
     P (fire random task (setTimers rest (setClock (N.max (clock w) d) w)))) ->
  forall fuel target w, P w -> P (runDue random fuel target w).
Proof.
  intros Hclock Hfire. induction fuel as [|fuel IH]; intros target w H; simpl.
  - apply Hclock. exact H.
  - destruct (earliest (timers w)) as [d|]; [|apply Hclock; exact H].
    destruct (d <=? target)%N; [|apply Hclock; exact H].
    destruct (takeDue d (timers w)) as [[task rest]|] eqn:Htake;
      [|apply Hclock; exact H].
    apply IH. apply (Hfire w d task rest H Htake).
Qed.

Lemma run_invariant (P : World -> Prop) :
  (forall w e, P w -> P (step random w e)) ->
  forall es w, P w -> P (run random w es).
Proof.
  intros Hstep. induction es as [|e es IH]; intros w H; [exact H|].
  simpl. apply IH. apply Hstep. exact H.
Qed.

Lemma runDue_consistent (fuel : nat) (target : N) (w : World) :
  consistent w -> consistent (runDue random fuel target w).
Proof.
  apply (runDue_invariant consistent).
  - intros v t H. exact H.
  - intros v d task rest [Hflags H] Htake.
    destruct v as [p en [l pr er] ck tm rc vs vp rn tr].
    unfold consistent in *. simpl in *.
    destruct p as [[|]|].
    + destruct H as (-> & _). discriminate.
    + destruct task; simpl; split; try reflexivity; try exact H.
      destruct l; reflexivity.
    + destruct H as (-> & _). discriminate.
Qed.

Lemma step_consistent (w : World) (e : Event) :
  consistent w -> consistent (step random w e).
Proof.
  destruct e; simpl; try (intro H; exact H);
    try (unfold elapse; apply runDue_consistent);
    destruct w as [p en [l pr er] ck tm rc vs vp rn tr];
    destruct p as [[|]|];
    unfold consistent, press, toggleListening, startListening, stopListening,
      recognition_onresult, Voice_onSpeechResults; simpl;
    intros [Hflags H].
  all: repeat match goal with
         | |- context [if ?b then _ else _] => destruct b; simpl
         | |- context [match firstAlternative ?e with _ => _ end] =>
             destruct (firstAlternative e); simpl
         | |- context [match value ?e with _ => _ end] =>
             destruct (value e) as [[|? ?]|]; simpl
         end.
  all: simpl in *; intuition (subst; simpl; try reflexivity; try discriminate).
Qed.

Lemma run_consistent (p : Platform) (enabled : bool) (es : list Event) :
  consistent (run random (mount p enabled) es).
Proof.
  apply (run_invariant consistent step_consistent).
  unfold consistent. simpl. destruct p as [[|]|]; repeat split.
Qed.

Lemma step_platform (w : World) (e : Event) :
  platform (step random w e) = platform w.
Proof.
  destruct e; simpl; try reflexivity;
    try (unfold elapse;
         apply (runDue_invariant (fun v => platform v = platform w));
         [intros v t H; exact H
         |intros v d [|] rest H _; exact H
         |reflexivity]);
    destruct w as [p en [l pr er] ck tm rc vs vp rn tr];
    destruct p as [[|]|];
    unfold press, toggleListening, startListening, stopListening,
      recognition_onresult, Voice_onSpeechResults; simpl.
  all: repeat match goal with
         | |- context [if ?b then _ else _] => destruct b; simpl
         | |- context [match firstAlternative ?e with _ => _ end] =>
             destruct (firstAlternative e); simpl
         | |- context [match value ?e with _ => _ end] =>
             destruct (value e) as [[|? ?]|]; simpl
         end.
  all: reflexivity.
Qed.

Lemma run_platform (p : Platform) (enabled : bool) (es : list Event) :
  platform (run random (mount p enabled) es) = p.
Proof.
  apply (run_invariant (fun v => platform v = p)); [|reflexivity].
  intros w e H. rewrite step_platform. exact H.
Qed.

(** X1.  In every world the component gets into from its mount, whatever
    the platform and whatever the events, [isListening] and [isProcessing]
    are not both set. *)
Theorem flags_never_both
  (p : Platform) (enabled : bool) (es : list Event) :
  isListening (ui (run random (mount p enabled) es)) &&
  isProcessing (ui (run random (mount p enabled) es)) = false.
Proof. exact (proj1 (run_consistent p enabled es)). Qed.

(** X2.  The colours, the icon and the wave rings of the button never
    disagree, although the icon tests the two flags in the other order than
    the colours: idle is red with the microphone, listening is purple with
    the crossed microphone and the rings, processing is amber with the
    loudspeaker. *)
Theorem button_look_agrees
  (p : Platform) (enabled : bool) (es : list Event) :
  let s := ui (run random (mount p enabled) es) in
  (getButtonColors s, icon s, wavesShown s) =
  match phase s with
  | Idle => (("#DC2626", "#EF4444"), Mic, false)
  | Listening => (("#7C3AED", "#A855F7"), MicOff, true)
  | Processing => (("#F59E0B", "#FBBF24"), Volume2, false)
  end.
Proof.
  intro s. pose proof (proj1 (run_consistent p enabled es)) as H.
  fold s in H. unfold getButtonColors, icon, wavesShown, phase.
  destruct (isListening s), (isProcessing s); try reflexivity. discriminate.
Qed.

(** X3.  Off the simulated fallback the component is never processing:
    with the browser engine or on the phone [isProcessing] stays false, so
    the status never reads "Memproses..." and only [isEnabled] can disable
    the button. *)
Theorem processing_only_simulated
  (p : Platform) (enabled : bool) (es : list Event) :
  p <> Web false ->
  isProcessing (ui (run random (mount p enabled) es)) = false /\
  getStatusText (ui (run random (mount p enabled) es)) <> "Memproses...".
Proof.
  intro Hp. pose proof (run_consistent p enabled es) as [_ H].
  rewrite run_platform in H.
  assert (Hpr : isProcessing (ui (run random (mount p enabled) es)) = false).
  { destruct p as [[|]|]; [tauto|contradiction|tauto]. }
  split; [exact Hpr|].
  pose proof (run_normalized random es (mount p enabled) I) as Hn.
  unfold normalized in Hn. unfold getStatusText. rewrite Hpr.
  destruct (error (ui (run random (mount p enabled) es))) as [m|]; simpl.
  - destruct Hn as [d ->]. simpl. discriminate.
  - destruct (isListening _); discriminate.
Qed.

(** X4.  Each platform only ever touches its own back end.  On the web no
    [Voice.start] is ever pending and [Voice.stop] is never called; with the
    browser engine no timer is ever registered; without it no recognition
    object is ever made; on the phone there is never a timer nor a
    recognition object. *)
Theorem backends_are_exclusive
  (p : Platform) (enabled : bool) (es : list Event) :
  let w := run random (mount p enabled) es in
  match p with
  | Web true => timers w = [] /\ voiceStarts w = 0 /\ voiceStops w = 0
  | Web false => recognitions w = 0 /\ voiceStarts w = 0 /\ voiceStops w = 0
  | Mobile => timers w = [] /\ recognitions w = 0
  end.
Proof.
  intro w. pose proof (run_consistent p enabled es) as [_ H].
  rewrite run_platform in H. fold w in H.
  destruct p as [[|]|]; tauto.
Qed.

(** X5.  A stored error message always begins with "Voice error: ", and it
    is then what the status text reads, whatever the two flags say. *)
Theorem stored_error_is_status
  (p : Platform) (enabled : bool) (es : list Event) (message : string) :
  error (ui (run random (mount p enabled) es)) = Some message ->
  (exists d, message = ("Voice error: " ++ d)%string) /\
  getStatusText (ui (run random (mount p enabled) es)) = message.
Proof.
  intro H.
  pose proof (run_normalized random es (mount p enabled) I) as Hn.
  unfold normalized in Hn. rewrite H in Hn. destruct Hn as [d ->].
  split; [exists d; reflexivity|].
  unfold getStatusText. rewrite H. reflexivity.
Qed.

End Invariants.

Lemma processing_only_simulated_witness :
  let w := run (fun _ => 0%N) (mount Mobile true)
             [Press; SpeechResults (mkResultsEvent (Some ["cek aki"])); Press;
              Elapse 5000] in
  isProcessing (ui w) = false /\ getStatusText (ui w) <> "Memproses...".
Proof.
  intro w. apply (processing_only_simulated (fun _ => 0%N) Mobile true).
  discriminate.
Defined.

Lemma stored_error_is_status_witness :
  let w := run (fun _ => 0%N) (mount (Web true) true)
             [Press; WebError "network"; WebEnd] in
  (exists d, "Voice error: network" = ("Voice error: " ++ d)%string) /\
  getStatusText (ui w) = "Voice error: network".
Proof.
  intro w.
  apply (stored_error_is_status (fun _ => 0%N) (Web true) true
           [Press; WebError "network"; WebEnd] "Voice error: network").
  reflexivity.
Defined.

(** * Errors outlive the end of the session *)

Lemma step_keeps_error (random : nat -> N) (w : World) (e : Event) :
  keepsError e = true -> error (ui (step random w e)) = error (ui w).
Proof.
  destruct e; simpl; try discriminate; intros _; try reflexivity.
  - unfold stopListening. destruct (platform w); reflexivity.
  - apply runDue_error.
  - destruct (0 <? recognitions w)%nat; [|reflexivity].
    unfold recognition_onresult. destruct (firstAlternative event); reflexivity.
  - destruct (0 <? recognitions w)%nat; reflexivity.
  - destruct (platform w); [reflexivity|].
    unfold Voice_onSpeechResults.
    destruct (value e) as [[|first others]|]; reflexivity.
Qed.

Lemma run_keeps_error (random : nat -> N) (es : list Event) (w : World) :
  forallb keepsError es = true ->
  error (ui (run random w es)) = error (ui w).
Proof.
  revert w. induction es as [|e es IH]; intros w H; [reflexivity|].
  simpl in H. apply andb_prop in H. destruct H as [He Hes].
  simpl. rewrite (IH _ Hes). apply step_keeps_error. exact He.
Qed.

(** X6.  Only a start request clears an error and only another error
    replaces it: through any sequence of stop requests, results, ends of
    recognition, settled starts, changes of [isEnabled] and passing time, a
    stored error message stays stored and stays the status text. *)
Theorem error_outlives_session_end
  (random : nat -> N) (w : World) (es : list Event) (message : string) :
  forallb keepsError es = true ->
  error (ui w) = Some message ->
  message <> "" ->
  error (ui (run random w es)) = Some message /\
  getStatusText (ui (run random w es)) = message.
Proof.
  intros Hes Herr Hne.
  pose proof (run_keeps_error random es w Hes) as H. rewrite Herr in H.
  split; [exact H|]. unfold getStatusText. rewrite H.
  destruct message; [contradiction|reflexivity].
Qed.

Lemma error_outlives_session_end_witness :
  let random := fun _ : nat => 0%N in
  let w := run random (mount (Web true) true) [Press; WebError "network"] in
  let es := [WebEnd; CallStop;
             WebResult (mkRecognitionEvent (Some "ganti oli"));
             Elapse 5000; SetEnabled true] in
  error (ui (run random w es)) = Some "Voice error: network" /\
  getStatusText (ui (run random w es)) = "Voice error: network".
Proof.
  intros random w es.
  apply (error_outlives_session_end random w es "Voice error: network").
  - reflexivity.
  - reflexivity.
  - discriminate.
Defined.

(** * One back end per start request *)

Lemma takeDue_length (d : N) (l : list Timer) task rest :
  takeDue d l = Some (task, rest) -> List.length l = S (List.length rest).
Proof.
  revert rest. induction l as [|[due k] l IH]; intros rest H.
  - discriminate.
  - simpl in H. destruct (due =? d)%N.
    + injection H as <- <-. reflexivity.
    + destruct (takeDue d l) as [[k' r']|]; [|discriminate].
      injection H as <- <-. simpl. rewrite (IH r' eq_refl). reflexivity.
Qed.

(** Brings the counts of a world whose trace is spelt out to numbers. *)
Ltac count_calls :=
  unfold results, starts, calls; simpl;
  rewrite ?filter_app, ?length_app; simpl;
  rewrite ?length_app; simpl.

(** Splits the handler that a step has been unfolded to along its tests. *)
Ltac handler_cases :=
  repeat match goal with
    | |- context [if ?b then _ else _] => destruct b; simpl
    | |- context [match firstAlternative ?e with _ => _ end] =>
        destruct (firstAlternative e); simpl
    | |- context [match value ?e with _ => _ end] =>
        destruct (value e) as [[|? ?]|]; simpl
    end.

Section Accounting.

Variable random : nat -> N.

Lemma runDue_simulatedBalance (fuel : nat) (target : N) (w : World) :
  simulatedBalance w -> simulatedBalance (runDue random fuel target w).
Proof.
  apply (runDue_invariant random simulatedBalance).
  - intros v t H. exact H.
  - intros v d task rest (Hp & Hr & Hb) Htake.
    apply takeDue_length in Htake.
    destruct v as [p en [l pr er] ck tm rc vs vp rn tr].
    unfold simulatedBalance in *. simpl in *.
    destruct task; simpl; (split; [exact Hp|]); (split; [exact Hr|]);
      revert Hb; count_calls; lia.
Qed.

Lemma step_simulatedBalance (w : World) (e : Event) :
  simulatedBalance w -> simulatedBalance (step random w e).
Proof.
  destruct e; simpl; try (intro H; exact H);
    try (unfold elapse; apply runDue_simulatedBalance);
    destruct w as [p en [l pr er] ck tm rc vs vp rn tr];
    unfold simulatedBalance, press, toggleListening, startListening,
      stopListening, recognition_onresult, Voice_onSpeechResults; simpl;
    intros (-> & -> & Hb); simpl; handler_cases;
    (split; [reflexivity|]); (split; [reflexivity|]);
    revert Hb; count_calls; lia.
Qed.

Lemma runDue_browserBalance (fuel : nat) (target : N) (w : World) :
  browserBalance w -> browserBalance (runDue random fuel target w).
Proof.
  apply (runDue_invariant random browserBalance).
  - intros v t H. exact H.
  - intros v d task rest (_ & Ht & _) Htake.
    rewrite Ht in Htake. discriminate.
Qed.

Lemma step_browserBalance (w : World) (e : Event) :
  browserBalance w -> browserBalance (step random w e).
Proof.
  destruct e; simpl; try (intro H; exact H);
    try (unfold elapse; apply runDue_browserBalance);
    destruct w as [p en [l pr er] ck tm rc vs vp rn tr];
    unfold browserBalance, press, toggleListening, startListening,
      stopListening, recognition_onresult, Voice_onSpeechResults; simpl;
    intros (-> & -> & Hb); simpl; handler_cases;
    (split; [reflexivity|]); (split; [reflexivity|]);
    revert Hb; count_calls; lia.
Qed.

(** X7.  On the simulated fallback every start request gets its result,
    stopped or not: in every world reached from the mount, the calls of
    [onVoiceResult] made plus the timers still pending equal the calls of
    [onListeningChange(true)] made. *)
Theorem simulated_results_balance (enabled : bool) (es : list Event) :
  let w := run random (mount (Web false) enabled) es in
  results w + List.length (timers w) = starts w.
Proof.
  apply (run_invariant random simulatedBalance step_simulatedBalance).
  repeat split.
Qed.

(** X8.  With the browser engine every start request that goes through
    makes a recognition object of its own and none is made otherwise: the
    objects made equal the calls of [onListeningChange(true)]. *)
Theorem browser_recognition_per_start (enabled : bool) (es : list Event) :
  let w := run random (mount (Web true) enabled) es in
  recognitions w = starts w.
Proof.
  apply (run_invariant random browserBalance step_browserBalance).
  repeat split.
Qed.

End Accounting.

(** * The order of the calls in every run *)

Lemma resultsAfterFalse_app (l1 l2 : list Callback) :
  resultsAfterFalse l1 -> resultsAfterFalse l2 ->
  resultsAfterFalse (l1 ++ l2).
Proof.
  intros H1 H2 i t H.
  destruct (Nat.lt_ge_cases i (List.length l1)) as [Hlt|Hge].
  - rewrite nth_error_app1 in H by exact Hlt.
    destruct (H1 i t H) as (j & -> & Hj).
    exists j. split; [reflexivity|].
    rewrite nth_error_app1 by lia. exact Hj.
  - rewrite nth_error_app2 in H by exact Hge.
    destruct (H2 _ t H) as (j & Hi & Hj).
    exists (List.length l1 + j). split; [lia|].
    rewrite nth_error_app2 by lia.
    replace (List.length l1 + j - List.length l1) with j by lia. exact Hj.
Qed.

Lemma resultsBeforeFalse_app (l1 l2 : list Callback) :
  resultsBeforeFalse l1 -> resultsBeforeFalse l2 ->
  resultsBeforeFalse (l1 ++ l2).
Proof.
  intros H1 H2 i t H.
  destruct (Nat.lt_ge_cases i (List.length l1)) as [Hlt|Hge].
  - rewrite nth_error_app1 in H by exact Hlt.
    pose proof (H1 i t H) as Hnext.
    assert (S i < List.length l1)
      by (apply nth_error_Some; rewrite Hnext; discriminate).
    rewrite nth_error_app1 by assumption. exact Hnext.
  - rewrite nth_error_app2 in H by exact Hge.
    pose proof (H2 _ t H) as Hnext.
    rewrite nth_error_app2 by lia.
    replace (S i - List.length l1) with (S (i - List.length l1)) by lia.
    exact Hnext.
Qed.

(** Settles the order of the calls in a block of at most three. *)
Ltac short_block :=
  let i := fresh "i" in
  let t := fresh "t" in
  let H := fresh "H" in
  intros i t H;
  do 4 (try (destruct i as [|i]; simpl in H; try discriminate));
  simpl; eauto.

(** Reduces the order of the calls after a handler to that of the block the
    handler has added. *)
Ltac added_block :=
  unfold calls; simpl;
  rewrite <- ?app_assoc; simpl;
  (apply resultsAfterFalse_app || apply resultsBeforeFalse_app);
  [assumption | short_block].

Section Order.

Variable random : nat -> N.

Lemma runDue_orderedReal (fuel : nat) (target : N) (w : World) :
  orderedReal w -> orderedReal (runDue random fuel target w).
Proof.
  apply (runDue_invariant random orderedReal).
  - intros v t H. exact H.
  - intros v d task rest (_ & Ht & _) Htake.
    rewrite Ht in Htake. discriminate.
Qed.

Lemma step_orderedReal (w : World) (e : Event) :
  orderedReal w -> orderedReal (step random w e).
Proof.
  destruct e; simpl; try (intro H; exact H);
    try (unfold elapse; apply runDue_orderedReal);
    destruct w as [p en [l pr er] ck tm rc vs vp rn tr];
    unfold orderedReal, press, toggleListening, startListening,
      stopListening, recognition_onresult, Voice_onSpeechResults; simpl;
    intros (Hp & -> & Hb); unfold calls in Hb; simpl in Hb;
    destruct p as [[|]|]; try contradiction; simpl; handler_cases;
    (split; [exact Hp|]); (split; [reflexivity|]);
    first [exact Hb | added_block].
Qed.

Lemma runDue_orderedSimulated (fuel : nat) (target : N) (w : World) :
  orderedSimulated w -> orderedSimulated (runDue random fuel target w).
Proof.
  apply (runDue_invariant random orderedSimulated).
  - intros v t H. exact H.
  - intros v d task rest (Hp & Hr & Hb) _.
    destruct v as [p en [l pr er] ck tm rc vs vp rn tr].
    unfold orderedSimulated in *. unfold calls in Hb. simpl in *.
    destruct task; simpl; (split; [exact Hp|]); (split; [exact Hr|]);
      first [exact Hb | added_block].
Qed.

Lemma step_orderedSimulated (w : World) (e : Event) :
  orderedSimulated w -> orderedSimulated (step random w e).
Proof.
  destruct e; simpl; try (intro H; exact H);
    try (unfold elapse; apply runDue_orderedSimulated);
    destruct w as [p en [l pr er] ck tm rc vs vp rn tr];
    unfold orderedSimulated, press, toggleListening, startListening,
      stopListening, recognition_onresult, Voice_onSpeechResults; simpl;
    intros (-> & -> & Hb); unfold calls in Hb; simpl in Hb;
    simpl; handler_cases;
    (split; [reflexivity|]); (split; [reflexivity|]);
    first [exact Hb | added_block].
Qed.

(** X9.  With the browser engine and on the phone, in every run, every call
    of [onVoiceResult] comes right after a call of
    [onListeningChange(false)]: the Notifier is told that listening is over
    before it is given the text. *)
Theorem real_results_follow_false
  (p : Platform) (enabled : bool) (es : list Event) :
  p <> Web false ->
  forall i t,
    nth_error (calls (run random (mount p enabled) es)) i =
      Some (VoiceResult t) ->
    exists j,
      i = S j /\
      nth_error (calls (run random (mount p enabled) es)) j =
        Some (ListeningChange false).
Proof.
  intro Hp.
  apply (run_invariant random orderedReal step_orderedReal).
  split; [exact Hp|]. split; [reflexivity|].
  intros [|i] t H; discriminate.
Qed.

(** X10.  On the simulated fallback, in every run, every call of
    [onVoiceResult] is followed at once by a call of
    [onListeningChange(false)], also for results of sessions that were
    stopped or that overlap. *)
Theorem simulated_results_precede_false
  (enabled : bool) (es : list Event) (i : nat) (t : JsText) :
  nth_error (calls (run random (mount (Web false) enabled) es)) i =
    Some (VoiceResult t) ->
  nth_error (calls (run random (mount (Web false) enabled) es)) (S i) =
    Some (ListeningChange false).
Proof.
  revert i t.
  apply (run_invariant random orderedSimulated step_orderedSimulated).
  split; [reflexivity|]. split; [reflexivity|].
  intros [|i] t H; discriminate.
Qed.

End Order.

Lemma real_results_follow_false_witness :
  let w := run (fun _ => 0%N) (mount Mobile true)
             [Press; SpeechResults (mkResultsEvent (Some ["cek aki"]))] in
  exists j, 2 = S j /\ nth_error (calls w) j = Some (ListeningChange false).
Proof.
  intro w.
  apply (real_results_follow_false (fun _ => 0%N) Mobile true
           [Press; SpeechResults (mkResultsEvent (Some ["cek aki"]))]
           ltac:(discriminate) 2 (Text "cek aki")).
  reflexivity.
Defined.

Lemma simulated_results_precede_false_witness :
  nth_error
    (calls (run (fun _ => 0%N) (mount (Web false) true)
              [Press; Press; Elapse 4000]))
    3 = Some (ListeningChange false).
Proof.
  apply (simulated_results_precede_false (fun _ => 0%N) true
           [Press; Press; Elapse 4000] 2 (Text "bagaimana cara ganti oli")).
  reflexivity.
Defined.

(** * The draw from the corpus *)




(** * The simulated session on any clock *)

(** X12.  On the simulated fallback, after a start request in a world with
    no timer pending, one look at the component [t] ms later finds it
    listening if [t < 3000], processing if [3000 <= t < 4000], and idle with
    the one result delivered if [4000 <= t]; before 4000 ms
    [onListeningChange(true)] is the only call made. *)
Theorem simulated_timeline (random : nat -> N) (w : World) (t : N) :
  platform w = Web false ->
  isEnabled w = true ->
  timers w = [] ->
  let w' := elapse random t (startListening w) in
  ((t < 3000)%N ->
   phase (ui w') = Listening /\ callsSince w w' = [ListeningChange true]) /\
  ((3000 <= t < 4000)%N ->
   phase (ui w') = Processing /\ callsSince w w' = [ListeningChange true]) /\
  ((4000 <= t)%N ->
   phase (ui w') = Idle /\
   timers w' = [] /\
   callsSince w w' =
     [ListeningChange true;
      VoiceResult (randomResponse (random (randomCalls w)));
      ListeningChange false]).
Proof.
  intros Hweb Hen Hquiet w'.
  destruct (simulated_start w Hweb Hen Hquiet) as (Hui & Htr & Htm & Hck & Hrc).
  assert (Hmax : N.max (clock (startListening w)) (clock w + 3000) =
                 (clock w + 3000)%N) by (rewrite Hck; lia).
  split; [|split].
  - intro Ht.
    destruct (simulated_wait random w Hweb Hen Hquiet t Ht) as [Hui' Htr'].
    fold w' in Hui', Htr'. split; [rewrite Hui'; reflexivity|].
    rewrite (callsSince_app w w' [ListeningChange true]);
      [reflexivity|]. rewrite Htr'. exact Htr.
  - intros [Hge Hlt]. subst w'. unfold elapse. rewrite Htm, Hck. simpl.
    rewrite Htm. simpl.
    destruct (N.leb_spec (clock w + 3000) (clock w + t)); [|lia].
    rewrite N.eqb_refl. simpl. rewrite Hmax.
    destruct (N.leb_spec (clock w + 3000 + 1000) (clock w + t)); [lia|].
    simpl. split; [reflexivity|].
    rewrite (callsSince_app w _ [ListeningChange true]);
      [reflexivity|]. simpl. exact Htr.
  - intro Hge. subst w'. unfold elapse. rewrite Htm, Hck. simpl.
    rewrite Htm. simpl.
    destruct (N.leb_spec (clock w + 3000) (clock w + t)); [|lia].
    rewrite N.eqb_refl. simpl. rewrite Hmax.
    destruct (N.leb_spec (clock w + 3000 + 1000) (clock w + t)); [|lia].
    rewrite N.eqb_refl. simpl. rewrite Hui, Hrc. simpl.
    split; [reflexivity|]. split; [reflexivity|].
    erewrite callsSince_app;
      [|simpl; rewrite Htr, <- !app_assoc; reflexivity].
    reflexivity.
Qed.

Lemma simulated_timeline_witness :
  let random := fun _ : nat => 0%N in
  let w := mount (Web false) true in
  let w' := elapse random 7000 (startListening w) in
  phase (ui w') = Idle /\
  timers w' = [] /\
  callsSince w w' =
    [ListeningChange true;
     VoiceResult (randomResponse (random (randomCalls w)));
     ListeningChange false].
Proof.
  intros random w w'.
  apply (proj2 (proj2 (simulated_timeline random w 7000
                         eq_refl eq_refl eq_refl))).
  discriminate.
Defined.
